(** * The book collection of [flask.ts]: a shallow embedding

    [src/flask.ts] holds a Flask-RESTful application: a module-level list
    [books] of dicts and two resources, [Books] ([get], [post]) and [Book]
    ([get], [put], [delete]).  This development embeds the five handlers
    as functions over an explicit collection state and proves the
    properties of the collection that the specification lists. *)

From Stdlib Require Import ZArith.
From Stdlib Require Import Floats.SpecFloat.
From stdpp Require Import gmap strings list fin_maps.

(** ** Values

    What [request.get_json()] yields and what the dicts of [books] hold:
    [None], [bool], [int] (unbounded), [float], [str], [list] and [dict]
    with string keys.  A [float] is kept as the exact binary number it
    denotes ([spec_float]: a sign, a mantissa and an exponent, or zero,
    an infinity, NaN); the only operation the handlers apply to it is the
    comparison with an [int], which Python decides on the exact values. *)

#[warnings="-register-all"]
Inductive json : Type :=
  | JNull
  | JBool (b : bool)
  | JInt (n : Z)
  | JFloat (f : spec_float)
  | JStr (s : string)
  | JArr (l : list json)
  | JObj (m : gmap string json).

(** A book is a Python dict: a finite map from field names to values.  The
    collection is what the global [books] holds: the list of the dicts, in
    insertion order.  No dict is in the list twice (the seed dicts are
    distinct, [post] appends the dict freshly decoded from the request and
    [delete] copies references without repeating any), so mutating one
    record in place leaves the others alone and a list of values models
    the list of objects. *)
Abbreviation record := (gmap string json).
Abbreviation collection := (list (gmap string json)).

(** The exceptions the handlers can raise on their own: [book["id"]] on a
    dict without that key, and item assignment on a body that is no
    dict. *)
Inductive exn : Type :=
  | KeyError
  | TypeError.

Inductive result (A : Type) : Type :=
  | Ok (a : A)
  | Raise (e : exn).
Arguments Ok {A} a.
Arguments Raise {A} e.

(** Sequencing: an exception skips what follows.  This gives [result] the
    notation [x ← r; k]. *)
#[global] Instance result_bind : MBind result := λ A B k r,
  match r with
  | Ok a => k a
  | Raise e => Raise e
  end.

(** What a handler returns: a body and an HTTP status.  The body is JSON
    ([jsonify(...)], or a dict that Flask-RESTful serialises) or a plain
    string (the empty body of [delete]). *)
Inductive payload : Type :=
  | Json (j : json)
  | Text (s : string).

Record response : Type := Response { body : payload; status : Z }.

Definition jsonify (j : json) (code : Z) : response :=
  {| body := Json j; status := code |}.

(** [{"message": "Book not found"}, 404] *)
Definition not_found : response :=
  jsonify (JObj {[ "message" := JStr "Book not found" ]}) 404.

(** ** Python's [==] against an [int]

    [book["id"] == book_id], with [book_id] the [int] of the route
    [/books/<int:book_id>].  A [bool] is the integer 0 or 1, a [float] is
    compared by exact value (NaN and the infinities equal no integer), and
    [None], strings, lists and dicts equal no integer. *)
Definition float_eq_int (f : spec_float) (n : Z) : bool :=
  match f with
  | S754_zero _ => (n =? 0)%Z
  | S754_infinity _ => false
  | S754_nan => false
  | S754_finite s m e =>
      let v := (if s then Z.neg m else Z.pos m) in
      if (0 <=? e)%Z then (n =? v * 2 ^ e)%Z
      else (Z.pos m mod 2 ^ (- e) =? 0)%Z && (n =? v / 2 ^ (- e))%Z
  end.

Definition py_eq_int (v : json) (n : Z) : bool :=
  match v with
  | JNull => false
  | JBool b => ((if b then 1 else 0) =? n)%Z
  | JInt k => (k =? n)%Z
  | JFloat f => float_eq_int f n
  | JStr _ => false
  | JArr _ => false
  | JObj _ => false
  end.

(** [x != n] is [not (x == n)] for every value above. *)
Definition py_ne_int (v : json) (n : Z) : bool := negb (py_eq_int v n).

(** [book["id"]]: the value, or [KeyError]. *)
Definition subscript_id (book : record) : result json :=
  match book !! "id" with
  | Some v => Ok v
  | None => Raise KeyError
  end.

(** [if book:] on a dict: true when it has at least one key. *)
Definition truthy (book : record) : bool := negb (Nat.eqb (size book) 0).

(** ** The seed *)
Definition mockingbird : record :=
  {[ "id" := JInt 1; "title" := JStr "To Kill a Mockingbird";
     "author" := JStr "Harper Lee" ]}.

Definition nineteen_eighty_four : record :=
  {[ "id" := JInt 2; "title" := JStr "1984"; "author" := JStr "George Orwell" ]}.

Definition seed : collection := [ mockingbird; nineteen_eighty_four ].

(** ** The scans

    [next((book for book in books if book["id"] == book_id), None)]: the
    generator is lazy, so the scan stops at the first match and raises
    only when a dict before it has no ["id"].  Python hands back the dict
    object itself, which [put] then mutates in place; here the position in
    the list stands for that object ([i0] is the position of the head). *)
Fixpoint first_match_from (i0 : nat) (books : collection) (book_id : Z)
    : result (option (nat * gmap string json)) :=
  match books with
  | [] => Ok None
  | book :: rest =>
      v ← subscript_id book ;
      if py_eq_int v book_id then Ok (Some (i0, book))
      else first_match_from (S i0) rest book_id
  end.

Definition first_match (books : collection) (book_id : Z)
    : result (option (nat * gmap string json)) :=
  first_match_from 0 books book_id.

(** [[book for book in books if book["id"] != book_id]]: the comprehension
    visits every dict, so it raises if any of them has no ["id"]. *)
Fixpoint without_id (books : collection) (book_id : Z) : result collection :=
  match books with
  | [] => Ok []
  | book :: rest =>
      v ← subscript_id book ;
      rest' ← without_id rest book_id ;
      Ok (if py_ne_int v book_id then book :: rest' else rest')
  end.

(** ** The handlers

    Each handler takes the collection and returns what it answers (or the
    exception it raises) and the collection it leaves.  An exception
    leaves the collection as the statements before the raising one made
    it. *)
Module Books.

(** [return jsonify(books)] *)
Definition get (books : collection) : result response * collection :=
  (Ok (jsonify (JArr (JObj <$> books)) 200), books).

(** [new_book = request.get_json(); new_book["id"] = len(books) + 1;
    books.append(new_book); return jsonify(new_book), 201].  Item
    assignment with a string key is defined on a dict only: on [None], a
    number, a string or a list it raises [TypeError], before the
    append. *)
Definition post (new_book : json) (books : collection)
    : result response * collection :=
  match new_book with
  | JObj fields =>
      let stored := <[ "id" := JInt (Z.of_nat (length books) + 1) ]> fields in
      (Ok (jsonify (JObj stored) 201), books ++ [stored])
  | _ => (Raise TypeError, books)
  end.

End Books.

Module Book.

Definition get (book_id : Z) (books : collection)
    : result response * collection :=
  match first_match books book_id with
  | Raise e => (Raise e, books)
  | Ok None => (Ok not_found, books)
  | Ok (Some (_, book)) =>
      if truthy book then (Ok (jsonify (JObj book) 200), books)
      else (Ok not_found, books)
  end.

(** [book.update(updated_book)] with [updated_book] a dict: the keys of
    [updated_book] win, the other keys of [book] stay ([∪] on maps is
    left-biased).  The dict is mutated in place, so the list keeps it at
    its position.  The embedding covers the bodies that are JSON
    objects, which is what the client [updateBook] of [fronted.ts]
    sends; [dict.update] on other values iterates them as key/value
    pairs and is left out. *)
Definition put (book_id : Z) (updated_book : record) (books : collection)
    : result response * collection :=
  match first_match books book_id with
  | Raise e => (Raise e, books)
  | Ok None => (Ok not_found, books)
  | Ok (Some (i, book)) =>
      if truthy book then
        let merged := updated_book ∪ book in
        (Ok (jsonify (JObj merged) 200), <[ i := merged ]> books)
      else (Ok not_found, books)
  end.

(** [books = [...]; return "", 204] *)
Definition delete (book_id : Z) (books : collection)
    : result response * collection :=
  match without_id books book_id with
  | Raise e => (Raise e, books)
  | Ok books' => (Ok {| body := Text EmptyString; status := 204 |}, books')
  end.

End Book.

(** ** Requests and their routing

    [api.add_resource(Books, "/books")] and
    [api.add_resource(Book, "/books/<int:book_id>")]. *)
Inductive request : Type :=
  | GET_books
  | POST_books (new_book : json)
  | GET_book (book_id : Z)
  | PUT_book (book_id : Z) (updated_book : gmap string json)
  | DELETE_book (book_id : Z).

Definition dispatch (rq : request) (books : collection)
    : result response * collection :=
  match rq with
  | GET_books => Books.get books
  | POST_books new_book => Books.post new_book books
  | GET_book book_id => Book.get book_id books
  | PUT_book book_id updated_book => Book.put book_id updated_book books
  | DELETE_book book_id => Book.delete book_id books
  end.

(** A session: the requests served one after the other, with every answer
    and the final collection. *)
Fixpoint serve (rqs : list request) (books : collection)
    : list (result response) * collection :=
  match rqs with
  | [] => ([], books)
  | rq :: rest =>
      let '(r, books') := dispatch rq books in
      let '(rs, books'') := serve rest books' in
      (r :: rs, books'')
  end.

Definition run (rqs : list request) (books : collection) : collection :=
  (serve rqs books).2.

(** ** Vocabulary of the statements *)

(** The dicts of the collection all carry an ["id"]: the seed does, [post]
    sets it, [put] never removes a key and [delete] only drops dicts (see
    [well_formed_dispatch]).  On such a collection no handler raises
    [KeyError]. *)
Definition has_id (book : record) : Prop := is_Some (book !! "id").

Definition well_formed (books : collection) : Prop := Forall has_id books.

(** The record's id equals [book_id], as [==] decides it. *)
Definition id_equals (book_id : Z) (book : record) : bool :=
  match book !! "id" with
  | Some v => py_eq_int v book_id
  | None => false
  end.

(** [book] sits at position [i] and is the first record, in insertion
    order, whose id equals [book_id]. *)
Definition first_with_id (books : collection) (book_id : Z) (i : nat) (book : record)
    : Prop :=
  books !! i = Some book ∧ id_equals book_id book = true ∧
  ∀ j other, j < i → books !! j = Some other → id_equals book_id other = false.

(** The ids of the collection, in order, and their uniqueness. *)
Definition ids (books : collection) : list (option json) :=
  (λ book, book !! "id") <$> books.

Definition unique_ids (books : collection) : Prop := NoDup (ids books).

(** The records carry the integers [ns] as ids, in order. *)
Definition int_ids (books : collection) (ns : list Z) : Prop :=
  ids books = (λ n, Some (JInt n)) <$> ns.

(** The ids count the records: 1, 2, ... in the order of the list. *)
Definition counted (books : collection) : Prop :=
  int_ids books (Z.of_nat <$> seq 1 (length books)).

(** Sessions in which no [put] carries an ["id"] key and no [post] comes
    after a [delete] ([after_delete] tells whether a [delete] was already
    served). *)
Fixpoint admissible (after_delete : bool) (rqs : list request) : bool :=
  match rqs with
  | [] => true
  | GET_books :: rest => admissible after_delete rest
  | GET_book _ :: rest => admissible after_delete rest
  | POST_books _ :: rest => negb after_delete && admissible after_delete rest
  | PUT_book _ updated_book :: rest =>
      bool_decide (updated_book !! "id" = None) && admissible after_delete rest
  | DELETE_book _ :: rest => admissible true rest
  end.

(** ** The session of the client

    The calls of [main] in [fronted.ts] after its first listing: create,
    get, update and delete the new book, then list again. *)

Definition gatsby : record :=
  {[ "title" := JStr "The Great Gatsby"; "author" := JStr "F. Scott Fitzgerald" ]}.

Definition gatsby_stored : record :=
  {[ "id" := JInt 3; "title" := JStr "The Great Gatsby";
     "author" := JStr "F. Scott Fitzgerald" ]}.

Definition gatsby_updated : record :=
  {[ "id" := JInt 3; "title" := JStr "The Great Gatsby (Updated)";
     "author" := JStr "F. Scott Fitzgerald" ]}.

Definition scenario : list request :=
  [ POST_books (JObj gatsby);
    GET_book 3;
    PUT_book 3 {[ "title" := JStr "The Great Gatsby (Updated)" ]};
    DELETE_book 3;
    GET_books ].

(** ** Vocabulary of the further properties *)

(** The first record whose id equals [book_id], if any. *)
Fixpoint lookup_id (book_id : Z) (books : collection) : option (gmap string json) :=
  match books with
  | [] => None
  | book :: rest =>
      if id_equals book_id book then Some book else lookup_id book_id rest
  end.

(** What [Book.get] answers when the scan has found [found]. *)
Definition answer_of (found : option (gmap string json)) : response :=
  match found with
  | Some book => jsonify (JObj book) 200
  | None => not_found
  end.



Definition raises (r : result response) : bool :=
  match r with
  | Ok _ => false
  | Raise _ => true
  end.

(** The fields sent to [put] leave the record under [book_id]: they carry
    no ["id"], or one that equals [book_id]. *)
Definition keeps_id (book_id : Z) (fields : record) : bool :=
  match fields !! "id" with
  | Some v => py_eq_int v book_id
  | None => true
  end.

(** Sessions without [delete] and without a [put] that carries an
    ["id"]. *)
Fixpoint append_only (rqs : list request) : bool :=
  match rqs with
  | [] => true
  | DELETE_book _ :: _ => false
  | PUT_book _ updated_book :: rest =>
      bool_decide (updated_book !! "id" = None) && append_only rest
  | _ :: rest => append_only rest
  end.

(** ** The client of [fronted.ts]

    [BookService] sends one request per method and hands back what
    [response.json()] parses.  The embedding runs the handlers in place of
    the HTTP exchange: the request of a method is served by [dispatch] on
    the collection of the server.

    A value the client receives is kept as the JSON document it was
    parsed from.  [None] stands for a promise that does not resolve with a
    value the embedding determines: it rejects ([response.json()] on a
    body that is no JSON), or the exchange leaves what is embedded (a
    handler raised, so the answer is Flask's own error page; an id in a
    path that the route [<int:book_id>] does not take; an integer that a
    JavaScript number does not hold exactly). *)
Module BookService.

(** [Number.MAX_SAFE_INTEGER]: up to it every integer is a JavaScript
    number, printed by [JSON.stringify] and by a template string in plain
    decimal digits. *)
Definition MAX_SAFE_INTEGER : Z := 2 ^ 53 - 1.

(** [interface Book], on a received document: an object with a numeric
    [id] and strings [title] and [author] (other keys are allowed, as for
    any TypeScript interface). *)
Definition is_Book (j : json) : bool :=
  match j with
  | JObj m =>
      match m !! "id", m !! "title", m !! "author" with
      | Some (JInt _ | JFloat _), Some (JStr _), Some (JStr _) => true
      | _, _, _ => false
      end
  | _ => false
  end.


(** [Partial<Book>]: every property may be absent. *)
Record PartialBook : Type :=
  { opt_id : option Z; opt_title : option string; opt_author : option string }.


(** Absent properties are left out of the document. *)
Definition set_opt (key : string) (v : option json) (m : gmap string json)
    : gmap string json :=
  match v with
  | Some j => <[ key := j ]> m
  | None => m
  end.

Definition stringify_partial (book : PartialBook) : option (gmap string json) :=
  match opt_id book with
  | Some n =>
      if decide (- MAX_SAFE_INTEGER ≤ n ≤ MAX_SAFE_INTEGER)%Z
      then Some (set_opt "id" (Some (JInt n))
                   (set_opt "title" (JStr <$> opt_title book)
                      (set_opt "author" (JStr <$> opt_author book) ∅)))
      else None
  | None =>
      Some (set_opt "title" (JStr <$> opt_title book)
              (set_opt "author" (JStr <$> opt_author book) ∅))
  end.

(** The id of a path [/books/${id}]: the route takes the decimal digits of
    a natural number. *)
Definition path_id (id : Z) : option Z :=
  if decide (0 ≤ id ≤ MAX_SAFE_INTEGER)%Z then Some id else None.

(** [await fetch(...)]: the answer of the handler. *)
Definition fetch (rq : request) (books : collection)
    : option (response * list (gmap string json)) :=
  match dispatch rq books with
  | (Ok r, books') => Some (r, books')
  | (Raise _, _) => None
  end.

(** [response.json()]: the handlers send a JSON body or the empty
    string, which is no JSON. *)
Definition response_json (r : response) : option json :=
  match body r with
  | Json j => Some j
  | Text _ => None
  end.



Definition getBook (id : Z) (books : collection)
    : option (json * list (gmap string json)) :=
  book_id ← path_id id;
  '(response, books') ← fetch (GET_book book_id) books;
  j ← response_json response;
  Some (j, books').


Definition updateBook (id : Z) (book : PartialBook) (books : collection)
    : option (json * list (gmap string json)) :=
  book_id ← path_id id;
  fields ← stringify_partial book;
  '(response, books') ← fetch (PUT_book book_id fields) books;
  j ← response_json response;
  Some (j, books').


End BookService.


(** * Proofs *)

(** ** [==] on small inputs: [2.0 == 2], [-3.0 == -3], [0.5 != 0],
    [True == 1], ["2" != 2] *)

Example float_two_eq_2 : py_eq_int (JFloat (S754_finite false 1 1)) 2 = true.
Proof. reflexivity. Qed.

Example float_minus_three_eq : py_eq_int (JFloat (S754_finite true 6 (-1))) (-3) = true.
Proof. reflexivity. Qed.

Example float_half_ne_0 : py_eq_int (JFloat (S754_finite false 1 (-1))) 0 = false.
Proof. reflexivity. Qed.

Example true_eq_1 : py_eq_int (JBool true) 1 = true.
Proof. reflexivity. Qed.

Example str_ne_2 : py_eq_int (JStr "2") 2 = false.
Proof. reflexivity. Qed.

(** ** The scans on well-formed collections *)

Lemma subscript_id_has_id (book : record) :
  has_id book → ∃ v, book !! "id" = Some v ∧ subscript_id book = Ok v.
Proof.
  intros [v Hv]. exists v. unfold subscript_id. by rewrite Hv.
Qed.

Lemma id_equals_has_id (book_id : Z) (book : record) :
  id_equals book_id book = true → has_id book.
Proof.
  unfold id_equals, has_id. destruct (book !! "id"); [eauto | done].
Qed.

Lemma has_id_truthy (book : record) : has_id book → truthy book = true.
Proof.
  intros [v Hv]. unfold truthy.
  destruct (Nat.eqb_spec (size book) 0) as [Hsz | _]; [| done].
  apply map_size_empty_iff in Hsz. subst book.
  by rewrite lookup_empty in Hv.
Qed.

Lemma first_match_from_none (i0 : nat) (books : collection) (book_id : Z) :
  well_formed books →
  (∀ book, book ∈ books → id_equals book_id book = false) →
  first_match_from i0 books book_id = Ok None.
Proof.
  intros Hwf. revert i0.
  induction Hwf as [| book rest [v Hv] _ IH]; intros i0 Hnone; [done |].
  cbn. unfold subscript_id. rewrite Hv. cbn.
  assert (py_eq_int v book_id = false) as ->.
  { specialize (Hnone book (list_elem_of_here _ _)).
    unfold id_equals in Hnone. by rewrite Hv in Hnone. }
  apply IH. intros other Hin. apply Hnone. by apply list_elem_of_further.
Qed.

Lemma first_match_from_some (i0 : nat) (books : collection) (book_id : Z)
    (i : nat) (book : record) :
  well_formed books →
  first_with_id books book_id i book →
  first_match_from i0 books book_id = Ok (Some (i0 + i, book)).
Proof.
  intros Hwf. revert i0 i.
  induction Hwf as [| b rest [v Hv] _ IH]; intros i0 i (Hi & Heq & Hfirst);
    [done |].
  cbn. unfold subscript_id. rewrite Hv. cbn.
  destruct i as [| i]; cbn in Hi.
  - injection Hi as ->. unfold id_equals in Heq. rewrite Hv in Heq.
    rewrite Heq. by rewrite Nat.add_0_r.
  - pose proof (Hfirst 0 b ltac:(lia) eq_refl) as Hb.
    unfold id_equals in Hb. rewrite Hv in Hb. rewrite Hb.
    rewrite (IH (S i0) i).
    + do 3 f_equal. lia.
    + split_and!; [done | done |].
      intros j other Hj Hother. apply (Hfirst (S j) other); [lia | done].
Qed.

Lemma first_match_some (books : collection) (book_id : Z) (i : nat) (book : record) :
  well_formed books →
  first_with_id books book_id i book →
  first_match books book_id = Ok (Some (i, book)).
Proof.
  intros Hwf Hfirst. unfold first_match.
  by rewrite (first_match_from_some 0 books book_id i book).
Qed.

(** What the scan finds is a record of the list, at the position it
    reports: no hypothesis on the collection is needed for that. *)
Lemma first_match_from_lookup (i0 : nat) (books : collection) (book_id : Z)
    (i : nat) (book : record) :
  first_match_from i0 books book_id = Ok (Some (i, book)) →
  i0 ≤ i ∧ books !! (i - i0) = Some book.
Proof.
  revert i0. induction books as [| b rest IH]; intros i0 Hfind; [done |].
  cbn in Hfind. destruct (subscript_id b) as [v | e]; [| done]. cbn in Hfind.
  destruct (py_eq_int v book_id).
  - injection Hfind as <- <-. split; [lia |]. by rewrite Nat.sub_diag.
  - apply IH in Hfind as [Hle Hlook]. split; [lia |].
    replace (i - i0) with (S (i - S i0)) by lia. done.
Qed.

Lemma first_match_lookup (books : collection) (book_id : Z) (i : nat) (book : record) :
  first_match books book_id = Ok (Some (i, book)) → books !! i = Some book.
Proof.
  intros [_ Hlook]%first_match_from_lookup. by rewrite Nat.sub_0_r in Hlook.
Qed.

(** When some record has the id, there is a first one. *)
Lemma first_with_id_exists (books : collection) (book_id : Z) (book0 : record) :
  book0 ∈ books → id_equals book_id book0 = true →
  ∃ i book, first_with_id books book_id i book.
Proof.
  induction 1 as [b rest | b hd rest Hin IH]; intros Heq.
  - exists 0, b. split_and!; [done | done | intros; lia].
  - destruct (id_equals book_id hd) eqn:Hb.
    + exists 0, hd. split_and!; [done | done | intros; lia].
    + destruct (IH Heq) as (i & book & Hi & Hbook & Hfirst).
      exists (S i), book. split_and!; [done | done |].
      intros [| j] o Hj Ho; cbn in Ho; [by injection Ho as <- |].
      apply (Hfirst j o); [lia | done].
Qed.

(** The comprehension of [delete] is a filter. *)
Lemma without_id_filter (books : collection) (book_id : Z) :
  well_formed books →
  without_id books book_id = Ok (filter (λ book, id_equals book_id book = false) books).
Proof.
  induction 1 as [| b rest [v Hv] _ IH]; [done |].
  assert (id_equals book_id b = py_eq_int v book_id) as Hb.
  { unfold id_equals. by rewrite Hv. }
  cbn [without_id]. unfold subscript_id. rewrite Hv, IH.
  cbn [mbind result_bind]. unfold py_ne_int. rewrite <- Hb.
  destruct (id_equals book_id b) eqn:Heq.
  - by rewrite filter_cons_False by congruence.
  - by rewrite filter_cons_True by done.
Qed.

(** It answers only when every dict has an id. *)
Lemma without_id_ok (books books' : collection) (book_id : Z) :
  without_id books book_id = Ok books' → well_formed books.
Proof.
  revert books'. induction books as [| b rest IH]; intros books' Hok; [constructor |].
  cbn in Hok. unfold subscript_id in Hok.
  destruct (b !! "id") as [v |] eqn:Hv; [| done]. cbn in Hok.
  destruct (without_id rest book_id) as [rest' |]; [| done].
  constructor; [by exists v | by eapply IH].
Qed.

(** ** Well-formedness is kept by every handler *)

Lemma seed_well_formed : well_formed seed.
Proof. repeat constructor; by eexists. Qed.

Lemma well_formed_filter (P : gmap string json → Prop) `{!∀ b, Decision (P b)}
    (books : collection) :
  well_formed books → well_formed (filter P books).
Proof.
  intros Hwf. apply Forall_forall. intros b [_ Hin]%list_elem_of_filter.
  by eapply Forall_forall in Hwf.
Qed.

Lemma well_formed_dispatch (rq : request) (books : collection) :
  well_formed books → well_formed (dispatch rq books).2.
Proof.
  intros Hwf. destruct rq as [| new_book | book_id | book_id fields | book_id];
    cbn.
  - done.
  - destruct new_book; cbn; try done.
    apply Forall_app. split; [done |]. constructor; [| constructor].
    eexists. apply lookup_insert_eq.
  - unfold Book.get. destruct (first_match books book_id) as [[[i b] |] | e];
      [destruct (truthy b) | |]; done.
  - unfold Book.put.
    destruct (first_match books book_id) as [[[i b] |] | e] eqn:Hfind; [| done..].
    destruct (truthy b); [| done]. cbn.
    apply Forall_insert; [done |].
    apply first_match_lookup in Hfind.
    assert (has_id b) as [v Hv].
    { eapply Forall_forall in Hwf; [done |]. by eapply list_elem_of_lookup_2. }
    destruct (fields !! "id") as [w |] eqn:Hw.
    + exists w. by apply lookup_union_Some_l.
    + exists v. by rewrite lookup_union_r.
  - unfold Book.delete. rewrite without_id_filter by done. cbn.
    by apply well_formed_filter.
Qed.

Lemma well_formed_run (rqs : list request) (books : collection) :
  well_formed books → well_formed (run rqs books).
Proof.
  revert books. induction rqs as [| rq rest IH]; intros books Hwf; [done |].
  unfold run in *. cbn.
  pose proof (well_formed_dispatch rq books Hwf) as Hstep.
  destruct (dispatch rq books) as [r books1]. cbn in Hstep.
  specialize (IH books1 Hstep). by destruct (serve rest books1).
Qed.

(** Either no record has the id, or there is a first one that has it. *)
Lemma no_match_or_first (books : collection) (book_id : Z) :
  (∀ book, book ∈ books → id_equals book_id book = false) ∨
  (∃ i book, first_with_id books book_id i book).
Proof.
  destruct (decide (Forall (λ b, id_equals book_id b = false) books)) as [Hall | Hex].
  - left. by apply Forall_forall.
  - right. apply (not_Forall_Exists _), Exists_exists in Hex as (b & Hin & Hb).
    apply (first_with_id_exists books book_id b Hin).
    unfold compose in Hb. by destruct (id_equals book_id b).
Qed.

Lemma first_with_id_elem (books : collection) (book_id : Z) (i : nat) (book : record) :
  first_with_id books book_id i book → book ∈ books ∧ id_equals book_id book = true.
Proof. intros (Hi & Heq & _). split; [by eapply list_elem_of_lookup_2 | done]. Qed.

Lemma filter_keeps_all {A} (P : A → Prop) `{!∀ x, Decision (P x)} (l : list A) :
  (∀ x, x ∈ l → P x) → filter P l = l.
Proof.
  induction l as [| x l IH]; intros Hall; [done |].
  rewrite filter_cons_True by (apply Hall; left).
  f_equal. apply IH. intros y Hy. apply Hall. by right.
Qed.

Lemma get_found (books : collection) (book_id : Z) (i : nat) (book : record) :
  well_formed books → first_with_id books book_id i book →
  Book.get book_id books = (Ok (jsonify (JObj book) 200), books).
Proof.
  intros Hwf Hfirst. unfold Book.get.
  rewrite (first_match_some books book_id i book) by done.
  apply first_with_id_elem in Hfirst as [_ Hid].
  by rewrite has_id_truthy by (by eapply id_equals_has_id).
Qed.

Lemma get_not_found (books : collection) (book_id : Z) :
  well_formed books →
  (∀ book, book ∈ books → id_equals book_id book = false) →
  Book.get book_id books = (Ok not_found, books).
Proof.
  intros Hwf Hnone. unfold Book.get, first_match.
  by rewrite first_match_from_none.
Qed.

Lemma put_found (books : collection) (book_id : Z) (fields : record)
    (i : nat) (book : record) :
  well_formed books → first_with_id books book_id i book →
  Book.put book_id fields books =
    (Ok (jsonify (JObj (fields ∪ book)) 200), <[ i := fields ∪ book ]> books).
Proof.
  intros Hwf Hfirst. unfold Book.put.
  rewrite (first_match_some books book_id i book) by done.
  apply first_with_id_elem in Hfirst as [_ Hid].
  by rewrite has_id_truthy by (by eapply id_equals_has_id).
Qed.

Lemma put_not_found (books : collection) (book_id : Z) (fields : record) :
  well_formed books →
  (∀ book, book ∈ books → id_equals book_id book = false) →
  Book.put book_id fields books = (Ok not_found, books).
Proof.
  intros Hwf Hnone. unfold Book.put, first_match.
  by rewrite first_match_from_none.
Qed.

Lemma delete_filter (books : collection) (book_id : Z) :
  well_formed books →
  Book.delete book_id books =
    (Ok {| body := Text EmptyString; status := 204 |},
     filter (λ book, id_equals book_id book = false) books).
Proof. intros Hwf. unfold Book.delete. by rewrite without_id_filter. Qed.

(** * The claims *)

(** C2: on every collection and for every mapping of fields sent by the
    caller, [post] answers 201 with the stored record, whose ["id"] is the
    length of the collection before the call plus one, whatever ["id"] the
    caller sent, and whose other fields are the caller's; the record is
    appended at the end of the collection. *)
Theorem post_assigns_length_plus_one (books : collection) (fields : record) :
  ∃ stored,
    Books.post (JObj fields) books = (Ok (jsonify (JObj stored) 201), books ++ [stored]) ∧
    stored !! "id" = Some (JInt (Z.of_nat (length books) + 1)) ∧
    (∀ k, k ≠ "id" → stored !! k = fields !! k) ∧
    last (books ++ [stored]) = Some stored ∧
    length (books ++ [stored]) = S (length books).
Proof.
  eexists. split_and!.
  - reflexivity.
  - apply lookup_insert_eq.
  - intros k Hk. by apply lookup_insert_ne.
  - apply last_snoc.
  - rewrite length_app. cbn. lia.
Qed.

(** C3: on a collection whose records all carry an id, [get] answers with
    the first record, in insertion order, whose id equals the argument
    when some record has it, and with NotFound (404) when none has; [put]
    answers NotFound exactly when no record has the id; listing, creating
    from a mapping of fields and deleting answer 200, 201 and 204. *)
Theorem not_found_only_without_match (books : collection) (book_id : Z) :
  well_formed books →
  (∀ book0, book0 ∈ books → id_equals book_id book0 = true →
     ∃ i book, first_with_id books book_id i book ∧
       Book.get book_id books = (Ok (jsonify (JObj book) 200), books)) ∧
  ((∀ book, book ∈ books → id_equals book_id book = false) →
     Book.get book_id books = (Ok not_found, books)) ∧
  (∀ fields, (Book.put book_id fields books).1 = Ok not_found ↔
     (∀ book, book ∈ books → id_equals book_id book = false)) ∧
  (∃ resp, (Books.get books).1 = Ok resp ∧ status resp = 200%Z) ∧
  (∀ fields, ∃ resp,
     (Books.post (JObj fields) books).1 = Ok resp ∧ status resp = 201%Z) ∧
  (∃ resp, (Book.delete book_id books).1 = Ok resp ∧ status resp = 204%Z).
Proof.
  intros Hwf. split_and!.
  - intros book0 Hin Heq.
    destruct (first_with_id_exists books book_id book0 Hin Heq) as (i & book & Hfirst).
    exists i, book. split; [done |]. by eapply get_found.
  - by apply get_not_found.
  - intros fields. split.
    + intros Hnf. destruct (no_match_or_first books book_id) as [| (i & book & Hfirst)];
        [done |].
      rewrite (put_found books book_id fields i book) in Hnf by done. done.
    + intros Hnone. by rewrite put_not_found.
  - by eexists.
  - intros fields. by eexists.
  - rewrite delete_filter by done. by eexists.
Qed.

(** C4: when [book], at position [i], is the first record with the id,
    [put] answers 200 with the merged record and stores it at position
    [i]: every key of [fields] (["id"] as any other) has the value
    [fields] gives it, every other key has the value [book] gave it, and
    every other position of the collection holds what it held. *)
Theorem put_merges_fields (books : collection) (book_id : Z) (fields : record)
    (i : nat) (book : record) :
  well_formed books → first_with_id books book_id i book →
  ∃ merged books',
    Book.put book_id fields books = (Ok (jsonify (JObj merged) 200), books') ∧
    (∀ k v, fields !! k = Some v → merged !! k = Some v) ∧
    (∀ k, fields !! k = None → merged !! k = book !! k) ∧
    books' !! i = Some merged ∧
    (∀ j, j ≠ i → books' !! j = books !! j) ∧
    length books' = length books.
Proof.
  intros Hwf Hfirst. exists (fields ∪ book), (<[ i := fields ∪ book ]> books).
  split_and!.
  - by apply put_found.
  - intros k v Hk. by apply lookup_union_Some_l.
  - intros k Hk. by apply lookup_union_r.
  - apply list_lookup_insert_eq. destruct Hfirst as [Hi _].
    by eapply lookup_lt_Some.
  - intros j Hj. by apply list_lookup_insert_ne.
  - apply length_insert.
Qed.

(** C5: on a collection whose records all carry an id, [delete] answers
    204 and leaves exactly the records whose id differs from the argument,
    in their order: all the records with the id are gone, however many,
    and when there was none the collection is as before.  A [get] of the
    same id that follows answers NotFound. *)
Theorem delete_removes_every_match (books : collection) (book_id : Z) :
  well_formed books →
  ∃ books',
    Book.delete book_id books = (Ok {| body := Text EmptyString; status := 204 |}, books') ∧
    books' = filter (λ book, id_equals book_id book = false) books ∧
    (∀ book, book ∈ books' ↔ book ∈ books ∧ id_equals book_id book = false) ∧
    ((∀ book, book ∈ books → id_equals book_id book = false) → books' = books) ∧
    Book.get book_id books' = (Ok not_found, books').
Proof.
  intros Hwf. eexists. split_and!.
  - by apply delete_filter.
  - done.
  - intros book. rewrite list_elem_of_filter. tauto.
  - intros Hnone. by apply filter_keeps_all.
  - apply get_not_found; [by apply well_formed_filter |].
    by intros book [Hb _]%list_elem_of_filter.
Qed.

(** C6: deleting the same id twice in a row leaves the collection that
    deleting it once leaves. *)
Theorem delete_idempotent (books : collection) (book_id : Z) :
  (Book.delete book_id (Book.delete book_id books).2).2 = (Book.delete book_id books).2.
Proof.
  unfold Book.delete at 2 3.
  destruct (without_id books book_id) as [books' | e] eqn:Hscan; cbn.
  - apply without_id_ok in Hscan as Hwf.
    rewrite without_id_filter in Hscan by done. injection Hscan as <-.
    rewrite delete_filter by (by apply well_formed_filter). cbn.
    apply filter_keeps_all. by intros book [Hb _]%list_elem_of_filter.
  - unfold Book.delete. by rewrite Hscan.
Qed.

(** C7: from the seed, after [delete] of id 2, a [post] of any mapping of
    fields stores and returns a record whose id is 2 again: the collection
    then has one record, and the id is its length plus one. *)
Theorem delete_then_post_reuses_id (fields : record) :
  ∃ stored,
    Books.post (JObj fields) (Book.delete 2 seed).2 =
      (Ok (jsonify (JObj stored) 201), (Book.delete 2 seed).2 ++ [stored]) ∧
    stored !! "id" = Some (JInt 2) ∧
    length (Book.delete 2 seed).2 = 1.
Proof.
  eexists. split_and!.
  - reflexivity.
  - by rewrite lookup_insert_eq.
  - reflexivity.
Qed.

(** ** What each handler does to the list *)

Lemma get_state (books : collection) (book_id : Z) : (Book.get book_id books).2 = books.
Proof.
  unfold Book.get. destruct (first_match books book_id) as [[[i b] |] | e];
    [destruct (truthy b) | |]; done.
Qed.

Lemma post_state (books : collection) (new_book : json) :
  books `prefix_of` (Books.post new_book books).2.
Proof.
  destruct new_book; cbn; try done. by apply prefix_app_r.
Qed.

Lemma put_state (books : collection) (book_id : Z) (fields : record) :
  (Book.put book_id fields books).2 = books ∨
  ∃ i book, books !! i = Some book ∧
    (Book.put book_id fields books).2 = <[ i := fields ∪ book ]> books.
Proof.
  unfold Book.put.
  destruct (first_match books book_id) as [[[i b] |] | e] eqn:Hfind;
    [| by left..].
  destruct (truthy b); [| by left].
  right. exists i, b. split; [by eapply first_match_lookup | done].
Qed.

Lemma without_id_sublist (books books' : collection) (book_id : Z) :
  without_id books book_id = Ok books' → books' `sublist_of` books.
Proof.
  intros Hscan. apply without_id_ok in Hscan as Hwf.
  rewrite without_id_filter in Hscan by done. injection Hscan as <-.
  apply sublist_filter.
Qed.

Lemma delete_state (books : collection) (book_id : Z) :
  (Book.delete book_id books).2 `sublist_of` books.
Proof.
  unfold Book.delete.
  destruct (without_id books book_id) as [books' | e] eqn:Hscan; cbn; [| done].
  by eapply without_id_sublist.
Qed.

(** C9: [Books.get] answers with all the records, in the order of the
    list, and leaves the list as it is, and so does [Book.get]; [post]
    keeps the list as a prefix of the new one; [put] keeps every position,
    with the merged record at the position of the record it merged into;
    [delete] leaves a sublist: the records kept are in their former
    order. *)
Theorem handlers_keep_insertion_order (books : collection) :
  Books.get books = (Ok (jsonify (JArr (JObj <$> books)) 200), books) ∧
  (∀ book_id, (Book.get book_id books).2 = books) ∧
  (∀ new_book, books `prefix_of` (Books.post new_book books).2) ∧
  (∀ book_id fields,
     (Book.put book_id fields books).2 = books ∨
     ∃ i book, books !! i = Some book ∧
       (Book.put book_id fields books).2 = <[ i := fields ∪ book ]> books) ∧
  (∀ book_id, (Book.delete book_id books).2 `sublist_of` books).
Proof.
  split_and!.
  - done.
  - apply get_state.
  - apply post_state.
  - apply put_state.
  - apply delete_state.
Qed.

(** C10: when [book], at position [i], is the first record with the id,
    [put] with no field answers 200 with [book] as it was and leaves the
    whole collection as it was. *)
Theorem put_empty_is_identity (books : collection) (book_id : Z) (i : nat) (book : record) :
  well_formed books → first_with_id books book_id i book →
  Book.put book_id ∅ books = (Ok (jsonify (JObj book) 200), books).
Proof.
  intros Hwf Hfirst. rewrite (put_found books book_id ∅ i book) by done.
  rewrite (left_id_L ∅ (∪) book).
  destruct Hfirst as [Hi _]. by rewrite list_insert_id.
Qed.

(** C8: from the seed, creating the Gatsby record answers it with id 3,
    getting 3 answers that record, updating 3 with the new title answers
    the record with id 3, the new title and the old author, deleting 3
    answers 204, and the final listing answers the two seed records in
    their order; the collection is the seed again. *)
Theorem scenario_from_seed :
  serve scenario seed =
    ([ Ok (jsonify (JObj gatsby_stored) 201);
       Ok (jsonify (JObj gatsby_stored) 200);
       Ok (jsonify (JObj gatsby_updated) 200);
       Ok {| body := Text EmptyString; status := 204 |};
       Ok (jsonify (JArr (JObj <$> seed)) 200) ],
     seed).
Proof. vm_compute. reflexivity. Qed.

(** ** Ids along a session *)

Lemma run_cons (rq : request) (rest : list request) (books : collection) :
  run (rq :: rest) books = run rest (dispatch rq books).2.
Proof.
  unfold run. cbn. destruct (dispatch rq books) as [r books1]. cbn.
  by destruct (serve rest books1).
Qed.

Lemma int_ids_well_formed (books : collection) (ns : list Z) :
  int_ids books ns → well_formed books.
Proof.
  unfold int_ids, ids. revert ns.
  induction books as [| b rest IH]; intros [| n ns] Hids; try done.
  - constructor.
  - injection Hids as Hb Hrest. constructor; [by exists (JInt n) | by eapply IH].
Qed.

Lemma int_ids_unique (books : collection) (ns : list Z) :
  int_ids books ns → NoDup ns → unique_ids books.
Proof.
  unfold int_ids, unique_ids. intros -> Hnd.
  apply NoDup_fmap_2_strong; [| done].
  intros n1 n2 _ _ Heq. by injection Heq.
Qed.

(** A [put] whose fields have no ["id"] leaves every id as it is. *)
Lemma put_keeps_ids (books : collection) (book_id : Z) (fields : record) :
  fields !! "id" = None → ids (Book.put book_id fields books).2 = ids books.
Proof.
  intros Hnone.
  destruct (put_state books book_id fields) as [-> | (i & b & Hi & ->)]; [done |].
  unfold ids. rewrite list_fmap_insert, lookup_union_r by done.
  apply list_insert_id. by rewrite list_lookup_fmap, Hi.
Qed.

(** With integer ids, [delete] leaves the records of a sublist of them. *)
Lemma delete_int_ids (books : collection) (ns : list Z) (book_id : Z) :
  int_ids books ns →
  ∃ ns', ns' `sublist_of` ns ∧ int_ids (Book.delete book_id books).2 ns'.
Proof.
  intros Hids. rewrite delete_filter by (by eapply int_ids_well_formed). cbn.
  revert ns Hids. unfold int_ids, ids.
  induction books as [| b rest IH]; intros [| n ns] Hids; try done.
  - by exists [].
  - injection Hids as Hb Hrest.
    destruct (IH ns Hrest) as (ns' & Hsub & Hids').
    destruct (decide (id_equals book_id b = false)) as [Hkeep | Hdrop].
    + exists (n :: ns'). split; [by apply sublist_skip |].
      rewrite filter_cons_True by done. cbn. by rewrite Hb, Hids'.
    + exists ns'. split; [by apply sublist_cons |].
      by rewrite filter_cons_False by done.
Qed.

(** Without a [delete] so far, the ids count the records from 1. *)
Lemma post_counted (books : collection) (new_book : json) :
  counted books → counted (Books.post new_book books).2.
Proof.
  unfold counted, int_ids, ids. intros Hids.
  destruct new_book; cbn; try done.
  rewrite fmap_app, length_app, Hids. cbn.
  rewrite Nat.add_1_r, seq_S, !fmap_app. cbn.
  rewrite lookup_insert_eq. do 4 f_equal. lia.
Qed.

Lemma counted_int_ids (books : collection) :
  counted books → ∃ ns, int_ids books ns ∧ NoDup ns.
Proof.
  intros Hc. eexists. split; [exact Hc |].
  apply (NoDup_fmap_2 Z.of_nat), NoDup_seq.
Qed.

Lemma ids_after_delete (rqs : list request) (books : collection) :
  admissible true rqs = true →
  (∃ ns, int_ids books ns ∧ NoDup ns) →
  ∃ ns, int_ids (run rqs books) ns ∧ NoDup ns.
Proof.
  revert books. induction rqs as [| rq rest IH]; intros books Hadm Hinv; [done |].
  rewrite run_cons.
  destruct rq as [| new_book | book_id | book_id fields | book_id];
    cbn in Hadm; try done; cbn [dispatch].
  - by apply IH.
  - rewrite get_state. by apply IH.
  - apply andb_prop in Hadm as [Hnoid%bool_decide_eq_true Hadm].
    apply IH; [done |]. destruct Hinv as (ns & Hids & Hnd).
    exists ns. split; [| done]. unfold int_ids. by rewrite put_keeps_ids.
  - apply IH; [done |]. destruct Hinv as (ns & Hids & Hnd).
    destruct (delete_int_ids books ns book_id Hids) as (ns' & Hsub & Hids').
    exists ns'. split; [done |]. by eapply sublist_NoDup.
Qed.

Lemma ids_before_delete (rqs : list request) (books : collection) :
  admissible false rqs = true →
  counted books →
  ∃ ns, int_ids (run rqs books) ns ∧ NoDup ns.
Proof.
  revert books. induction rqs as [| rq rest IH]; intros books Hadm Hc.
  { by apply counted_int_ids. }
  rewrite run_cons.
  destruct rq as [| new_book | book_id | book_id fields | book_id];
    cbn in Hadm; cbn [dispatch].
  - by apply IH.
  - apply IH; [done |]. by apply post_counted.
  - rewrite get_state. by apply IH.
  - apply andb_prop in Hadm as [Hnoid%bool_decide_eq_true Hadm].
    apply IH; [done |]. unfold counted, int_ids in *.
    destruct (put_state books book_id fields) as [-> | (i & b & Hi & Hput)];
      [done |].
    rewrite put_keeps_ids by done. rewrite Hput, length_insert. done.
  - apply ids_after_delete; [done |].
    destruct (counted_int_ids books Hc) as (ns & Hids & Hnd).
    destruct (delete_int_ids books ns book_id Hids) as (ns' & Hsub & Hids').
    exists ns'. split; [done |]. by eapply sublist_NoDup.
Qed.

Lemma seed_counted : counted seed.
Proof. reflexivity. Qed.

(** C1, as the code has it: from the seed, after every session in which
    no [put] carries an ["id"] key and no [post] follows a [delete], the
    ids of the collection are integers and no two records have the same
    id. *)
Theorem ids_unique_without_reuse (rqs : list request) :
  admissible false rqs = true →
  unique_ids (run rqs seed) ∧
  ∃ ns, int_ids (run rqs seed) ns ∧ NoDup ns.
Proof.
  intros Hadm.
  destruct (ids_before_delete rqs seed Hadm seed_counted) as (ns & Hids & Hnd).
  split; [by eapply int_ids_unique | by exists ns].
Qed.

(** An id sent to [put] collides as well: from the seed, updating record
    1 with id 2 leaves two records with id 2. *)
Lemma ids_collide_after_put :
  ¬ unique_ids (run [PUT_book 1 {[ "id" := JInt 2 ]}] seed).
Proof.
  unfold unique_ids.
  change (ids (run [PUT_book 1 {[ "id" := JInt 2 ]}] seed))
    with [Some (JInt 2); Some (JInt 2)].
  intros [Hnin _]%NoDup_cons. apply Hnin. left.
Qed.

(** C1 fails as stated: from the seed, [delete] of id 1 and then a [post]
    leave two records with id 2. *)
Lemma ids_collide_after_delete :
  ¬ unique_ids (run [DELETE_book 1; POST_books (JObj ∅)] seed).
Proof.
  unfold unique_ids.
  change (ids (run [DELETE_book 1; POST_books (JObj ∅)] seed))
    with [Some (JInt 2); Some (JInt 2)].
  intros [Hnin _]%NoDup_cons. apply Hnin. left.
Qed.

(** Every collection a session reaches from the seed is well-formed. *)
Lemma reachable_well_formed (rqs : list request) : well_formed (run rqs seed).
Proof. apply well_formed_run, seed_well_formed. Qed.

(** A body that is no JSON object makes [post] raise. *)
Lemma post_non_object (new_book : json) (books : collection) :
  (∀ fields, new_book ≠ JObj fields) →
  Books.post new_book books = (Raise TypeError, books).
Proof. intros Hno. destruct new_book; try done. by destruct (Hno m). Qed.

(** ** The theorems at work on the seed *)

Lemma seed_first_1 : first_with_id seed 1 0 mockingbird.
Proof. split_and!; [reflexivity | reflexivity | intros j other Hj; lia]. Defined.

Lemma seed_first_2 : first_with_id seed 2 1 nineteen_eighty_four.
Proof.
  split_and!; [reflexivity | reflexivity |].
  intros [| j] other Hj Hother; [| lia].
  injection Hother as <-. reflexivity.
Defined.

Lemma seed_no_7 (book : record) : book ∈ seed → id_equals 7 book = false.
Proof.
  intros Hin. apply list_elem_of_In in Hin.
  destruct Hin as [<- | [<- | []]]; reflexivity.
Defined.

Lemma not_found_only_without_match_witness :
  well_formed seed ∧
  Book.get 7 seed = (Ok not_found, seed) ∧
  (Book.put 7 gatsby seed).1 = Ok not_found ∧
  (∃ i book, first_with_id seed 2 i book ∧
     Book.get 2 seed = (Ok (jsonify (JObj book) 200), seed)).
Proof.
  split; [exact seed_well_formed |].
  destruct (not_found_only_without_match seed 7 seed_well_formed)
    as (_ & Hget & Hput & _).
  destruct (not_found_only_without_match seed 2 seed_well_formed)
    as (Hfound & _).
  split_and!.
  - apply Hget, seed_no_7.
  - apply Hput, seed_no_7.
  - apply (Hfound nineteen_eighty_four); [| reflexivity].
    apply list_elem_of_In. right. left. reflexivity.
Defined.

Lemma put_merges_fields_witness :
  well_formed seed ∧ first_with_id seed 2 1 nineteen_eighty_four ∧
  ∃ merged books',
    Book.put 2 {[ "title" := JStr "Nineteen Eighty-Four"; "pages" := JInt 328 ]} seed =
      (Ok (jsonify (JObj merged) 200), books') ∧
    merged !! "title" = Some (JStr "Nineteen Eighty-Four") ∧
    merged !! "pages" = Some (JInt 328) ∧
    merged !! "author" = Some (JStr "George Orwell") ∧
    books' !! 1 = Some merged ∧ books' !! 0 = Some mockingbird.
Proof.
  split; [exact seed_well_formed |]. split; [exact seed_first_2 |].
  destruct (put_merges_fields seed 2
              {[ "title" := JStr "Nineteen Eighty-Four"; "pages" := JInt 328 ]}
              1 nineteen_eighty_four seed_well_formed seed_first_2)
    as (merged & books' & Hput & Hnew & Hold & Hi & Hothers & _).
  exists merged, books'. split_and!.
  - exact Hput.
  - apply Hnew. reflexivity.
  - apply Hnew. reflexivity.
  - rewrite Hold; reflexivity.
  - exact Hi.
  - rewrite Hothers; [reflexivity | lia].
Defined.

Lemma delete_removes_every_match_witness :
  well_formed seed ∧
  ∃ books',
    Book.delete 2 seed = (Ok {| body := Text EmptyString; status := 204 |}, books') ∧
    books' = [mockingbird] ∧
    Book.get 2 books' = (Ok not_found, books').
Proof.
  split; [exact seed_well_formed |].
  destruct (delete_removes_every_match seed 2 seed_well_formed)
    as (books' & Hdel & Hfilter & _ & _ & Hget).
  exists books'. split_and!; [exact Hdel | | exact Hget].
  rewrite Hfilter. reflexivity.
Defined.

Lemma put_empty_is_identity_witness :
  well_formed seed ∧ first_with_id seed 1 0 mockingbird ∧
  Book.put 1 ∅ seed = (Ok (jsonify (JObj mockingbird) 200), seed).
Proof.
  split; [exact seed_well_formed |]. split; [exact seed_first_1 |].
  exact (put_empty_is_identity seed 1 0 mockingbird seed_well_formed seed_first_1).
Defined.

Lemma ids_unique_without_reuse_witness :
  admissible false
    [POST_books (JObj gatsby);
     PUT_book 3 {[ "title" := JStr "The Great Gatsby (Updated)" ]};
     DELETE_book 1; GET_book 2; GET_books] = true ∧
  unique_ids
    (run [POST_books (JObj gatsby);
          PUT_book 3 {[ "title" := JStr "The Great Gatsby (Updated)" ]};
          DELETE_book 1; GET_book 2; GET_books] seed).
Proof.
  split; [reflexivity |].
  apply (ids_unique_without_reuse
           [POST_books (JObj gatsby);
            PUT_book 3 {[ "title" := JStr "The Great Gatsby (Updated)" ]};
            DELETE_book 1; GET_book 2; GET_books]).
  reflexivity.
Defined.

(** * Further properties of the handlers *)

(** ** Equality with an integer *)

(** A value equals at most one integer. *)
Lemma py_eq_int_unique (v : json) (n m : Z) :
  py_eq_int v n = true → py_eq_int v m = true → n = m.
Proof.
  destruct v as [| b | k | f | | |]; cbn; try done.
  - intros ?%Z.eqb_eq ?%Z.eqb_eq. congruence.
  - intros ?%Z.eqb_eq ?%Z.eqb_eq. congruence.
  - destruct f as [s | s | | s mant e]; cbn; try done.
    + intros ?%Z.eqb_eq ?%Z.eqb_eq. congruence.
    + destruct (0 <=? e)%Z.
      * intros ?%Z.eqb_eq ?%Z.eqb_eq. congruence.
      * intros [_ ?%Z.eqb_eq]%andb_prop [_ ?%Z.eqb_eq]%andb_prop. congruence.
Qed.

Lemma id_equals_unique (book : record) (a b : Z) :
  id_equals a book = true → id_equals b book = true → a = b.
Proof.
  unfold id_equals. destruct (book !! "id") as [v |]; [| done].
  apply py_eq_int_unique.
Qed.

Lemma id_equals_other (book : record) (a b : Z) :
  a ≠ b → id_equals b book = true → id_equals a book = false.
Proof.
  intros Hne Hb. destruct (id_equals a book) eqn:Ha; [| done].
  destruct Hne. by eapply id_equals_unique.
Qed.

(** ** [Book.get] as a lookup *)

Lemma lookup_id_None (book_id : Z) (books : collection) :
  lookup_id book_id books = None ↔
  ∀ book, book ∈ books → id_equals book_id book = false.
Proof.
  induction books as [| b rest IH]; cbn.
  - split; [intros _ book Hin; by apply elem_of_nil in Hin | done].
  - destruct (id_equals book_id b) eqn:Hb.
    + split; [done |]. intros Hall. specialize (Hall b (list_elem_of_here _ _)).
      congruence.
    + rewrite IH. split.
      * intros Hall book [-> | Hin]%elem_of_cons; [done | by apply Hall].
      * intros Hall book Hin. apply Hall. by right.
Qed.

Lemma lookup_id_Some (book_id : Z) (books : collection) (book : record) :
  lookup_id book_id books = Some book ↔ ∃ i, first_with_id books book_id i book.
Proof.
  revert book. induction books as [| b rest IH]; intros book; cbn.
  - split; [done |]. by intros (i & Hi & _).
  - destruct (id_equals book_id b) eqn:Hb.
    + split.
      * intros [= <-]. exists 0. split_and!; [done | done | intros; lia].
      * intros ([| i] & Hi & Heq & Hfirst).
        -- by injection Hi as ->.
        -- specialize (Hfirst 0 b ltac:(lia) eq_refl). congruence.
    + rewrite IH. split.
      * intros (i & Hi & Heq & Hfirst). exists (S i). split_and!; [done | done |].
        intros [| j] other Hj Hother; [by injection Hother as <- |].
        apply (Hfirst j other); [lia | done].
      * intros ([| i] & Hi & Heq & Hfirst).
        -- injection Hi as ->. congruence.
        -- exists i. split_and!; [done | done |].
           intros j other Hj Hother. apply (Hfirst (S j) other); [lia | done].
Qed.

Lemma get_lookup (books : collection) (book_id : Z) :
  well_formed books →
  Book.get book_id books = (Ok (answer_of (lookup_id book_id books)), books).
Proof.
  intros Hwf. destruct (lookup_id book_id books) as [book |] eqn:Hl.
  - apply lookup_id_Some in Hl as [i Hfirst]. by eapply get_found.
  - apply get_not_found; [done |]. by apply lookup_id_None.
Qed.

Lemma put_lookup (books : collection) (book_id : Z) (fields : record) :
  well_formed books →
  (Book.put book_id fields books).1 =
    Ok (answer_of ((fields ∪.) <$> lookup_id book_id books)).
Proof.
  intros Hwf. destruct (lookup_id book_id books) as [book |] eqn:Hl.
  - apply lookup_id_Some in Hl as [i Hfirst].
    by rewrite (put_found books book_id fields i book).
  - rewrite put_not_found; [done | done |]. by apply lookup_id_None.
Qed.


(** ** Lookups under the three mutations *)

Lemma lookup_id_filter_other (a b : Z) (books : collection) :
  a ≠ b →
  lookup_id b (filter (λ book, id_equals a book = false) books) =
  lookup_id b books.
Proof.
  intros Hne. induction books as [| h rest IH]; [done |].
  destruct (id_equals a h) eqn:Ha.
  - rewrite filter_cons_False by congruence. cbn.
    by rewrite (id_equals_other h b a) by done.
  - rewrite filter_cons_True by done. cbn. by rewrite IH.
Qed.

Lemma lookup_id_insert_skip (a : Z) (books : collection) (i : nat)
    (old new : record) :
  books !! i = Some old →
  id_equals a old = false → id_equals a new = false →
  lookup_id a (<[ i := new ]> books) = lookup_id a books.
Proof.
  revert i. induction books as [| h rest IH]; intros i Hi Hold Hnew; [done |].
  destruct i as [| i]; cbn in Hi |- *.
  - injection Hi as ->. by rewrite Hold, Hnew.
  - destruct (id_equals a h); [done |]. by apply IH.
Qed.

Lemma lookup_id_insert_first (a : Z) (books : collection) (i : nat)
    (old new : record) :
  first_with_id books a i old →
  id_equals a new = true →
  lookup_id a (<[ i := new ]> books) = Some new.
Proof.
  revert i. induction books as [| h rest IH]; intros i (Hi & Hold & Hfirst) Hnew;
    [done |].
  destruct i as [| i]; cbn in Hi |- *.
  - by rewrite Hnew.
  - rewrite (Hfirst 0 h) by (lia || done). apply IH; [| done].
    split_and!; [done | done |].
    intros j other Hj Hother. apply (Hfirst (S j) other); [lia | done].
Qed.

Lemma lookup_id_app (a : Z) (books more : collection) :
  lookup_id a (books ++ more) =
    match lookup_id a books with
    | Some found => Some found
    | None => lookup_id a more
    end.
Proof.
  induction books as [| h rest IH]; cbn; [by destruct (lookup_id a more) |].
  by destruct (id_equals a h).
Qed.

Lemma lookup_id_insert_gone (a : Z) (books : collection) (i : nat)
    (old new : record) :
  first_with_id books a i old →
  id_equals a new = false →
  lookup_id a (<[ i := new ]> books) = lookup_id a (drop (S i) books).
Proof.
  revert i. induction books as [| h rest IH]; intros i (Hi & Hold & Hfirst) Hnew;
    [done |].
  destruct i as [| i]; cbn in Hi |- *.
  - by rewrite Hnew, drop_0.
  - rewrite (Hfirst 0 h) by (lia || done). apply IH; [| done].
    split_and!; [done | done |].
    intros j other Hj Hother. apply (Hfirst (S j) other); [lia | done].
Qed.

Lemma filter_same_iff {A} (P : A → Prop) `{!∀ x, Decision (P x)} (l : list A) :
  filter P l = l ↔ ∀ x, x ∈ l → P x.
Proof.
  split; [| apply filter_keeps_all].
  intros Heq x Hin. destruct (decide (P x)) as [| Hno]; [done |].
  pose proof (length_filter_lt P l x Hin Hno) as Hlt.
  rewrite Heq in Hlt. lia.
Qed.


Lemma merged_id_equals (a : Z) (fields book : record) :
  id_equals a (fields ∪ book) =
    match fields !! "id" with
    | Some v => py_eq_int v a
    | None => id_equals a book
    end.
Proof.
  unfold id_equals. destruct (fields !! "id") as [v |] eqn:Hv.
  - by rewrite (lookup_union_Some_l fields book "id" v).
  - by rewrite lookup_union_r.
Qed.

(** ** Failures *)





(** ** Deleting *)

Lemma delete_state_filter (books : collection) (book_id : Z) :
  well_formed books →
  (Book.delete book_id books).2 = filter (λ book, id_equals book_id book = false) books.
Proof. intros Hwf. by rewrite delete_filter. Qed.

Lemma delete_raises (books : collection) (a b : Z) (e : exn) :
  without_id books a = Raise e → ∃ e', without_id books b = Raise e'.
Proof.
  intros Ha. destruct (without_id books b) as [books' |e'] eqn:Hb; [| by eexists].
  apply without_id_ok in Hb. rewrite without_id_filter in Ha by done. done.
Qed.

(** X3: two deletions commute: deleting [a] then [b] leaves the collection
    that deleting [b] then [a] leaves, on every collection. *)
Theorem delete_commutes (books : collection) (a b : Z) :
  (Book.delete a (Book.delete b books).2).2 =
  (Book.delete b (Book.delete a books).2).2.
Proof.
  destruct (without_id books a) as [books' | e] eqn:Ha.
  - apply without_id_ok in Ha as Hwf.
    rewrite (delete_state_filter books a), (delete_state_filter books b) by done.
    rewrite !delete_state_filter by (by apply well_formed_filter).
    rewrite !list_filter_filter. apply list_filter_iff. tauto.
  - destruct (delete_raises books a b e Ha) as [e' Hb].
    unfold Book.delete at 2 4. rewrite Ha, Hb. cbn.
    unfold Book.delete. by rewrite Ha, Hb.
Qed.

(** X4: [delete] changes the collection exactly when some record has the
    id: its answer is 204 in both cases, but the list it leaves is the
    former list if and only if the lookup of the id finds nothing. *)
Theorem delete_changes_iff_present (books : collection) (book_id : Z) :
  well_formed books →
  ((Book.delete book_id books).2 = books ↔ lookup_id book_id books = None) ∧
  (lookup_id book_id books ≠ None →
     length (Book.delete book_id books).2 < length books).
Proof.
  intros Hwf. rewrite delete_state_filter by done. split.
  - by rewrite filter_same_iff, lookup_id_None.
  - intros Hsome. destruct (lookup_id book_id books) as [book |] eqn:Hl; [| done].
    apply lookup_id_Some in Hl as [i Hfirst].
    apply first_with_id_elem in Hfirst as [Hin Heq].
    apply (length_filter_lt _ _ book); [done | congruence].
Qed.

(** X5: creating a record and deleting the id it was given leaves the
    former collection without the records that already had that id: the
    round trip restores the collection exactly when no older record had
    the id [len(books) + 1], and otherwise removes the older records
    too. *)
Theorem post_then_delete (books : collection) (fields : record) :
  well_formed books →
  let new_id := (Z.of_nat (length books) + 1)%Z in
  let after := (Book.delete new_id (Books.post (JObj fields) books).2).2 in
  after = filter (λ book, id_equals new_id book = false) books ∧
  (after = books ↔ lookup_id new_id books = None).
Proof.
  intros Hwf new_id after.
  assert (after = filter (λ book, id_equals new_id book = false) books) as Hafter.
  { unfold after. rewrite delete_state_filter
      by apply (well_formed_dispatch (POST_books (JObj fields)) books Hwf).
    cbn. rewrite filter_app, filter_cons_False, filter_nil, app_nil_r; [done |].
    unfold id_equals. rewrite lookup_insert_eq. cbn.
    fold new_id. by rewrite Z.eqb_refl. }
  split; [done |].
  by rewrite Hafter, filter_same_iff, lookup_id_None.
Qed.

(** ** Updating *)

Lemma put_state_found (books : collection) (book_id : Z) (fields : record)
    (i : nat) (book : record) :
  well_formed books → first_with_id books book_id i book →
  (Book.put book_id fields books).2 = <[ i := fields ∪ book ]> books.
Proof. intros Hwf Hfirst. by rewrite (put_found books book_id fields i book). Qed.

Lemma put_state_not_found (books : collection) (book_id : Z) (fields : record) :
  well_formed books → lookup_id book_id books = None →
  (Book.put book_id fields books).2 = books.
Proof.
  intros Hwf Hnone. rewrite put_not_found; [done | done |].
  by apply lookup_id_None.
Qed.

Lemma keeps_id_merged (book_id : Z) (fields book : record) :
  keeps_id book_id fields = true → id_equals book_id book = true →
  id_equals book_id (fields ∪ book) = true.
Proof.
  unfold keeps_id. rewrite merged_id_equals.
  by destruct (fields !! "id").
Qed.

Lemma first_with_id_insert (books : collection) (book_id : Z) (i : nat)
    (book new : record) :
  first_with_id books book_id i book → id_equals book_id new = true →
  first_with_id (<[ i := new ]> books) book_id i new.
Proof.
  intros (Hi & Heq & Hfirst) Hnew. split_and!; [| done |].
  - apply list_lookup_insert_eq. by eapply lookup_lt_Some.
  - intros j other Hj Hother. rewrite list_lookup_insert_ne in Hother by lia.
    by eapply Hfirst.
Qed.

(** X6: an update whose fields carry no id, or the id of the request, is
    idempotent: sent twice in a row it gives the answer and the collection
    that sending it once gives. *)
Theorem put_idempotent (books : collection) (book_id : Z) (fields : record) :
  well_formed books → keeps_id book_id fields = true →
  Book.put book_id fields (Book.put book_id fields books).2 =
  Book.put book_id fields books.
Proof.
  intros Hwf Hkeep.
  destruct (lookup_id book_id books) as [book |] eqn:Hl.
  - apply lookup_id_Some in Hl as [i Hfirst].
    pose proof (well_formed_dispatch (PUT_book book_id fields) books Hwf) as Hwf'.
    cbn in Hwf'.
    rewrite (put_found books book_id fields i book) in Hwf' |- * by done.
    cbn in Hwf' |- *.
    rewrite (put_found _ book_id fields i (fields ∪ book)); [| done |].
    + rewrite (assoc_L (∪)), (idemp_L (∪) fields).
      by rewrite list_insert_insert_eq.
    + apply (first_with_id_insert books book_id i book); [done |].
      apply keeps_id_merged; [done |]. by destruct Hfirst as (_ & ? & _).
  - rewrite (put_not_found books book_id fields) by (done || by apply lookup_id_None).
    cbn. by rewrite (put_not_found books book_id fields)
      by (done || by apply lookup_id_None).
Qed.

(** X7: after an update whose fields carry no id, or the id of the
    request, a [get] of the same id answers what the update answered: the
    merged record, or NotFound when the update found nothing. *)
Theorem get_after_put (books : collection) (book_id : Z) (fields : record) :
  well_formed books → keeps_id book_id fields = true →
  (Book.get book_id (Book.put book_id fields books).2).1 =
  (Book.put book_id fields books).1.
Proof.
  intros Hwf Hkeep.
  pose proof (well_formed_dispatch (PUT_book book_id fields) books Hwf) as Hwf'.
  cbn in Hwf'. rewrite get_lookup by done. rewrite put_lookup by done. cbn.
  destruct (lookup_id book_id books) as [book |] eqn:Hl.
  - apply lookup_id_Some in Hl as [i Hfirst].
    rewrite (put_state_found books book_id fields i book) by done.
    rewrite (lookup_id_insert_first book_id books i book); [done | done |].
    apply keeps_id_merged; [done |]. by destruct Hfirst as (_ & ? & _).
  - by rewrite put_state_not_found, Hl.
Qed.

(** X8: an update that sends another id takes the record away from the
    id of the request: afterwards a [get] of that id answers the next
    record, after the updated position, that has the id, and NotFound
    when there is none. *)
Theorem put_other_id_rekeys (books : collection) (book_id : Z) (fields : record)
    (i : nat) (book : record) (v : json) :
  well_formed books → first_with_id books book_id i book →
  fields !! "id" = Some v → py_eq_int v book_id = false →
  (Book.get book_id (Book.put book_id fields books).2).1 =
    Ok (answer_of (lookup_id book_id (drop (S i) books))).
Proof.
  intros Hwf Hfirst Hv Hne.
  pose proof (well_formed_dispatch (PUT_book book_id fields) books Hwf) as Hwf'.
  cbn in Hwf'. rewrite get_lookup by done. cbn.
  rewrite (put_state_found books book_id fields i book) by done.
  rewrite (lookup_id_insert_gone book_id books i book); [done | done |].
  by rewrite merged_id_equals, Hv.
Qed.

(** ** What a mutation of one id does to the lookups of another *)

(** X9: deleting one id leaves the answer of [get] for every other id as
    it was. *)
Theorem delete_keeps_other_lookups (books : collection) (a b : Z) :
  well_formed books → a ≠ b →
  (Book.get b (Book.delete a books).2).1 = (Book.get b books).1.
Proof.
  intros Hwf Hne. rewrite delete_state_filter by done.
  rewrite !get_lookup by (done || by apply well_formed_filter). cbn.
  by rewrite lookup_id_filter_other.
Qed.

(** X10: an update of the record under [b], with fields that carry no id
    equal to another integer [a], leaves the answer of [get] for [a] as it
    was. *)
Theorem put_keeps_other_lookups (books : collection) (a b : Z) (fields : record) :
  well_formed books → a ≠ b → id_equals a fields = false →
  (Book.get a (Book.put b fields books).2).1 = (Book.get a books).1.
Proof.
  intros Hwf Hne Hfields.
  pose proof (well_formed_dispatch (PUT_book b fields) books Hwf) as Hwf'.
  cbn in Hwf'. rewrite !get_lookup by done. cbn.
  destruct (lookup_id b books) as [book |] eqn:Hl.
  - apply lookup_id_Some in Hl as [i Hfirst].
    rewrite (put_state_found books b fields i book) by done.
    destruct Hfirst as (Hi & Heq & _).
    pose proof (id_equals_other book a b Hne Heq) as Hold.
    rewrite (lookup_id_insert_skip a books i book); [done | done | done |].
    rewrite merged_id_equals. unfold id_equals in Hfields.
    by destruct (fields !! "id").
  - by rewrite put_state_not_found.
Qed.

(** X11: after a [post], [get] answers for every id what it answered
    before, with one exception: under the id given to the new record,
    when no older record had it, it answers the new record.  An older
    record with that id keeps answering in place of the new one. *)
Theorem get_after_post (books : collection) (fields : record) (a : Z) :
  well_formed books →
  let new_id := (Z.of_nat (length books) + 1)%Z in
  let stored := <[ "id" := JInt new_id ]> fields in
  (Book.get a (Books.post (JObj fields) books).2).1 =
    match lookup_id a books with
    | Some older => Ok (jsonify (JObj older) 200)
    | None => if (a =? new_id)%Z then Ok (jsonify (JObj stored) 200)
              else Ok not_found
    end.
Proof.
  intros Hwf new_id stored.
  pose proof (well_formed_dispatch (POST_books (JObj fields)) books Hwf) as Hwf'.
  cbn in Hwf'. rewrite get_lookup by done. cbn. fold new_id. fold stored.
  rewrite lookup_id_app. destruct (lookup_id a books) as [older |]; [done |].
  cbn. unfold id_equals at 1. unfold stored at 1. rewrite lookup_insert_eq. cbn.
  rewrite Z.eqb_sym. by destruct (a =? new_id)%Z.
Qed.

(** ** Sessions that only append *)

Lemma counted_lookup (books : collection) (i : nat) (book : record) :
  counted books → books !! i = Some book →
  book !! "id" = Some (JInt (Z.of_nat i + 1)).
Proof.
  unfold counted, int_ids, ids. intros Hc Hi.
  assert (((λ b : gmap string json, b !! "id") <$> books) !! i = Some (book !! "id")) as Hid.
  { by rewrite list_lookup_fmap, Hi. }
  rewrite Hc, !list_lookup_fmap in Hid.
  rewrite lookup_seq_lt in Hid by (by eapply lookup_lt_Some).
  cbn in Hid. injection Hid as <-. do 2 f_equal. lia.
Qed.

Lemma counted_first (books : collection) (i : nat) (book : record) :
  counted books → books !! i = Some book →
  first_with_id books (Z.of_nat i + 1) i book.
Proof.
  intros Hc Hi. split_and!; [done | |].
  - unfold id_equals. rewrite (counted_lookup books i book) by done.
    cbn. apply Z.eqb_refl.
  - intros j other Hj Hother. unfold id_equals.
    rewrite (counted_lookup books j other) by done. cbn.
    apply Z.eqb_neq. lia.
Qed.

Lemma counted_run (rqs : list request) (books : collection) :
  append_only rqs = true → counted books → counted (run rqs books).
Proof.
  revert books. induction rqs as [| rq rest IH]; intros books Happ Hc; [done |].
  rewrite run_cons.
  destruct rq as [| new_book | book_id | book_id fields | book_id];
    cbn in Happ; cbn [dispatch]; try done.
  - by apply IH.
  - apply IH; [done |]. by apply post_counted.
  - rewrite get_state. by apply IH.
  - apply andb_prop in Happ as [Hnoid%bool_decide_eq_true Happ].
    apply IH; [done |]. unfold counted, int_ids in *.
    destruct (put_state books book_id fields) as [-> | (i & b & Hi & Hput)];
      [done |].
    rewrite put_keeps_ids by done. rewrite Hput, length_insert. done.
Qed.

(** X12: in a session without [delete] and without an update that carries
    an ["id"], started on a collection whose ids count its records from 1
    (the seed is one), ids are positions: the record at position [i] has
    id [i + 1], [get] of [i + 1] answers it, and [get] of an id outside
    [1 .. len(books)] answers NotFound. *)
Theorem append_only_ids_are_positions (rqs : list request) (books : collection) :
  append_only rqs = true → counted books →
  let final := run rqs books in
  (∀ i book, final !! i = Some book →
     book !! "id" = Some (JInt (Z.of_nat i + 1)) ∧
     Book.get (Z.of_nat i + 1) final = (Ok (jsonify (JObj book) 200), final)) ∧
  (∀ k, (k < 1 ∨ Z.of_nat (length final) < k)%Z →
     Book.get k final = (Ok not_found, final)).
Proof.
  intros Happ Hc final.
  pose proof (counted_run rqs books Happ Hc) as Hfinal. fold final in Hfinal.
  pose proof (int_ids_well_formed final _ Hfinal) as Hwf.
  split.
  - intros i book Hi. split; [by apply (counted_lookup final) |].
    apply (get_found final _ i book); [done |]. by apply counted_first.
  - intros k Hk. apply get_not_found; [done |].
    intros book [i Hi]%list_elem_of_lookup_1. unfold id_equals.
    rewrite (counted_lookup final i book) by done. cbn.
    apply lookup_lt_Some in Hi. apply Z.eqb_neq. lia.
Qed.

(** * The client *)

Lemma path_id_in_range (id : Z) :
  (0 ≤ id ≤ BookService.MAX_SAFE_INTEGER)%Z → BookService.path_id id = Some id.
Proof. intros Hr. unfold BookService.path_id. by rewrite decide_True. Qed.

Lemma fetch_ok (rq : request) (books books' : collection) (r : response) :
  dispatch rq books = (Ok r, books') → BookService.fetch rq books = Some (r, books').
Proof. intros Hd. unfold BookService.fetch. by rewrite Hd. Qed.



Lemma getBook_resolves (id : Z) (books : collection) :
  well_formed books → (0 ≤ id ≤ BookService.MAX_SAFE_INTEGER)%Z →
  BookService.getBook id books =
    Some (match lookup_id id books with
          | Some book => JObj book
          | None => JObj {[ "message" := JStr "Book not found" ]}
          end, books).
Proof.
  intros Hwf Hr. unfold BookService.getBook.
  rewrite path_id_in_range by done. cbn [mbind option_bind].
  rewrite (fetch_ok (GET_book id) books books _ (get_lookup books id Hwf)).
  cbn [mbind option_bind].
  by destruct (lookup_id id books).
Qed.

Lemma updateBook_resolves (id : Z) (book : BookService.PartialBook)
    (fields : record) (books : collection) :
  well_formed books → (0 ≤ id ≤ BookService.MAX_SAFE_INTEGER)%Z →
  BookService.stringify_partial book = Some fields →
  BookService.updateBook id book books =
    Some (match lookup_id id books with
          | Some found => JObj (fields ∪ found)
          | None => JObj {[ "message" := JStr "Book not found" ]}
          end, (Book.put id fields books).2).
Proof.
  intros Hwf Hr Hfields. unfold BookService.updateBook.
  rewrite path_id_in_range, Hfields by done. cbn [mbind option_bind].
  pose proof (put_lookup books id fields Hwf) as Hput.
  unfold BookService.fetch. cbn [dispatch].
  destruct (Book.put id fields books) as [r books']. cbn in Hput. subst r.
  cbn [mbind option_bind]. by destruct (lookup_id id books).
Qed.


(** X13: [getBook] and [updateBook] do not reject on an id that no record
    has: they resolve with the object [{"message": "Book not found"}],
    which is not a [Book] although the methods are typed to return one;
    the collection is as before. *)
Theorem client_resolves_on_missing_id (id : Z) (book : BookService.PartialBook)
    (fields : record) (books : collection) :
  well_formed books → (0 ≤ id ≤ BookService.MAX_SAFE_INTEGER)%Z →
  lookup_id id books = None →
  BookService.stringify_partial book = Some fields →
  let message := JObj {[ "message" := JStr "Book not found" ]} in
  BookService.getBook id books = Some (message, books) ∧
  BookService.updateBook id book books = Some (message, books) ∧
  BookService.is_Book message = false.
Proof.
  intros Hwf Hr Hnone Hfields message. split_and!.
  - by rewrite getBook_resolves, Hnone.
  - rewrite (updateBook_resolves id book fields) by done.
    by rewrite Hnone, put_state_not_found.
  - reflexivity.
Qed.




(** ** Records out of reach *)

Lemma dispatch_keeps_unaddressable (rq : request) (books : collection)
    (book : record) :
  well_formed books → book ∈ books → (∀ n, id_equals n book = false) →
  book ∈ (dispatch rq books).2.
Proof.
  intros Hwf Hin Hnone.
  destruct rq as [| new_book | book_id | book_id fields | book_id]; cbn.
  - done.
  - destruct new_book; cbn; try done. apply elem_of_app. by left.
  - by rewrite get_state.
  - destruct (lookup_id book_id books) as [found |] eqn:Hl.
    + apply lookup_id_Some in Hl as [i Hfirst].
      rewrite (put_state_found books book_id fields i found) by done.
      destruct Hfirst as (Hi & Heq & _).
      apply list_elem_of_lookup_1 in Hin as [j Hj].
      apply (list_elem_of_lookup_2 _ j). rewrite list_lookup_insert_ne; [done |].
      intros ->. rewrite Hj in Hi. injection Hi as ->.
      rewrite Hnone in Heq. done.
    + by rewrite put_state_not_found.
  - rewrite delete_state_filter by done. apply list_elem_of_filter. by split.
Qed.

(** X16: a record whose id equals no integer (a string, [null], a list,
    an object, a float that is no integer: an update can write any of
    them) is out of reach of the requests by id: whatever the session, it stays in the collection as it
    is; no [put] changes it and no [delete] removes it. *)
Theorem unaddressable_record_stays (rqs : list request) (books : collection)
    (book : record) :
  well_formed books → book ∈ books → (∀ n, id_equals n book = false) →
  book ∈ run rqs books.
Proof.
  revert books. induction rqs as [| rq rest IH]; intros books Hwf Hin Hnone;
    [done |].
  rewrite run_cons. apply IH; [| | done].
  - by apply well_formed_dispatch.
  - by apply dispatch_keeps_unaddressable.
Qed.

(** ** Uniqueness, handler by handler *)



(** ** The further properties at work *)

Lemma safe_small (n : Z) :
  (0 ≤ n ≤ 1000)%Z → (0 ≤ n ≤ BookService.MAX_SAFE_INTEGER)%Z.
Proof. unfold BookService.MAX_SAFE_INTEGER. lia. Defined.



Lemma delete_changes_iff_present_witness :
  well_formed seed ∧ lookup_id 2 seed ≠ None ∧
  length (Book.delete 2 seed).2 < length seed.
Proof.
  split; [exact seed_well_formed |]. split; [discriminate |].
  apply (delete_changes_iff_present seed 2 seed_well_formed). discriminate.
Defined.

Lemma post_then_delete_witness :
  well_formed seed ∧ lookup_id 3 seed = None ∧
  (Book.delete 3 (Books.post (JObj gatsby) seed).2).2 = seed.
Proof.
  split; [exact seed_well_formed |]. split; [reflexivity |].
  apply (post_then_delete seed gatsby seed_well_formed). reflexivity.
Defined.

Lemma put_idempotent_witness :
  well_formed seed ∧
  keeps_id 2 {[ "id" := JFloat (S754_finite false 1 1); "pages" := JInt 328 ]} = true ∧
  Book.put 2 {[ "id" := JFloat (S754_finite false 1 1); "pages" := JInt 328 ]}
    (Book.put 2 {[ "id" := JFloat (S754_finite false 1 1); "pages" := JInt 328 ]}
       seed).2 =
  Book.put 2 {[ "id" := JFloat (S754_finite false 1 1); "pages" := JInt 328 ]} seed.
Proof.
  split; [exact seed_well_formed |]. split; [reflexivity |].
  apply (put_idempotent seed 2); [exact seed_well_formed | reflexivity].
Defined.

Lemma get_after_put_witness :
  well_formed seed ∧ keeps_id 1 {[ "title" := JStr "Mockingbird" ]} = true ∧
  (Book.get 1 (Book.put 1 {[ "title" := JStr "Mockingbird" ]} seed).2).1 =
  (Book.put 1 {[ "title" := JStr "Mockingbird" ]} seed).1.
Proof.
  split; [exact seed_well_formed |]. split; [reflexivity |].
  apply (get_after_put seed 1); [exact seed_well_formed | reflexivity].
Defined.

Lemma put_other_id_rekeys_witness :
  well_formed seed ∧ first_with_id seed 1 0 mockingbird ∧
  (Book.get 1 (Book.put 1 {[ "id" := JInt 2 ]} seed).2).1 = Ok not_found.
Proof.
  split; [exact seed_well_formed |]. split; [exact seed_first_1 |].
  exact (put_other_id_rekeys seed 1 {[ "id" := JInt 2 ]} 0 mockingbird (JInt 2)
           seed_well_formed seed_first_1 eq_refl eq_refl).
Defined.

Lemma delete_keeps_other_lookups_witness :
  well_formed seed ∧ (1 ≠ 2)%Z ∧
  (Book.get 2 (Book.delete 1 seed).2).1 = Ok (jsonify (JObj nineteen_eighty_four) 200).
Proof.
  split; [exact seed_well_formed |]. split; [discriminate |].
  rewrite (delete_keeps_other_lookups seed 1 2 seed_well_formed); [| discriminate].
  reflexivity.
Defined.

Lemma put_keeps_other_lookups_witness :
  well_formed seed ∧ (1 ≠ 2)%Z ∧ id_equals 1 {[ "id" := JInt 5 ]} = false ∧
  (Book.get 1 (Book.put 2 {[ "id" := JInt 5 ]} seed).2).1 =
    Ok (jsonify (JObj mockingbird) 200).
Proof.
  split; [exact seed_well_formed |]. split; [discriminate |].
  split; [reflexivity |].
  rewrite (put_keeps_other_lookups seed 1 2 {[ "id" := JInt 5 ]} seed_well_formed);
    [reflexivity | discriminate | reflexivity].
Defined.

Lemma get_after_post_witness :
  well_formed [nineteen_eighty_four] ∧
  (Book.get 2 (Books.post (JObj gatsby) [nineteen_eighty_four]).2).1 =
    Ok (jsonify (JObj nineteen_eighty_four) 200).
Proof.
  assert (well_formed [nineteen_eighty_four]) as Hwf.
  { constructor; [| constructor]. eexists. reflexivity. }
  split; [exact Hwf |].
  exact (get_after_post [nineteen_eighty_four] gatsby 2 Hwf).
Defined.

Lemma append_only_ids_are_positions_witness :
  append_only [POST_books (JObj gatsby); PUT_book 3 {[ "title" := JStr "Gatsby" ]};
               GET_books] = true ∧
  counted seed ∧
  Book.get 9 (run [POST_books (JObj gatsby);
                   PUT_book 3 {[ "title" := JStr "Gatsby" ]}; GET_books] seed) =
    (Ok not_found,
     run [POST_books (JObj gatsby);
          PUT_book 3 {[ "title" := JStr "Gatsby" ]}; GET_books] seed).
Proof.
  split; [reflexivity |]. split; [reflexivity |].
  apply (append_only_ids_are_positions
           [POST_books (JObj gatsby); PUT_book 3 {[ "title" := JStr "Gatsby" ]};
            GET_books] seed); [reflexivity | reflexivity |].
  right. reflexivity.
Defined.

Lemma client_resolves_on_missing_id_witness :
  well_formed seed ∧ lookup_id 7 seed = None ∧
  BookService.getBook 7 seed =
    Some (JObj {[ "message" := JStr "Book not found" ]}, seed) ∧
  BookService.updateBook 7
    {| BookService.opt_id := None; BookService.opt_title := Some "Emma";
       BookService.opt_author := None |} seed =
    Some (JObj {[ "message" := JStr "Book not found" ]}, seed).
Proof.
  split; [exact seed_well_formed |]. split; [reflexivity |].
  destruct (client_resolves_on_missing_id 7
              {| BookService.opt_id := None; BookService.opt_title := Some "Emma";
                 BookService.opt_author := None |}
              {[ "title" := JStr "Emma" ]} seed seed_well_formed
              (safe_small 7 ltac:(lia)) eq_refl eq_refl) as (Hget & Hput & _).
  split; [exact Hget | exact Hput].
Defined.


Lemma unaddressable_record_stays_witness :
  well_formed [ {[ "id" := JStr "first" ]}; mockingbird ] ∧
  {[ "id" := JStr "first" ]} ∈
    run [DELETE_book 1; PUT_book 0 {[ "title" := JStr "Emma" ]}; DELETE_book 0]
        [ {[ "id" := JStr "first" ]}; mockingbird ].
Proof.
  assert (well_formed [ {[ "id" := JStr "first" ]}; mockingbird ]) as Hwf.
  { constructor; [| constructor; [| constructor]]; eexists; reflexivity. }
  split; [exact Hwf |].
  apply (unaddressable_record_stays _ _ _ Hwf).
  - apply list_elem_of_In. left. reflexivity.
  - intros n. reflexivity.
Defined.

